(** * Task store of "The Evolution of Todo": web TaskService and console TaskStorage

    Shallow embedding of the task code in plan.md:
    - Phase II (web): the SQLModel [Task] table, [TaskBase]/[TaskCreate]/
      [TaskUpdate] validation and the [TaskService] methods
      (create, get, list, update, delete).
    - Phase I (console): the [Task] dataclass with [mark_done]/[mark_pending]
      and the in-memory [TaskStorage] class.

    Modelling conventions:
    - UUIDs and integer ids are [Z]; timestamps ([datetime]) and calendar
      dates are [Z]; the current time ([datetime.utcnow()] /
      [datetime.now()]) is passed in explicitly as [now].
    - A database table is the list of its rows; a [select ... where ...]
      without [ORDER BY] yields the rows in the order of that list. *)

From Stdlib Require Import ZArith String Ascii List Lia.
From stdpp Require Import base list gmap strings pretty.

Open Scope Z_scope.

(* ===================================================================== *)
(** ** Phase II: web backend *)
(* ===================================================================== *)

Module Web.

(** [class TaskStatus(str, Enum)] *)
Inductive TaskStatus := PENDING | IN_PROGRESS | DONE.

(** [class TaskPriority(str, Enum)] *)
Inductive TaskPriority := LOW | MEDIUM | HIGH.

#[global] Instance TaskStatus_eq_dec : EqDecision TaskStatus.
Proof. solve_decision. Defined.
#[global] Instance TaskPriority_eq_dec : EqDecision TaskPriority.
Proof. solve_decision. Defined.

(** [class Task(TaskBase, table=True)] with the fields of [TaskBase]. *)
Record Task := mkTask {
  id : Z;
  user_id : Z;
  title : string;
  description : option string;
  status : TaskStatus;
  priority : TaskPriority;
  due_date : option Z;
  tags : list string;
  created_at : Z;
  updated_at : Z;
  completed_at : option Z
}.

#[global] Instance Task_eq_dec : EqDecision Task.
Proof. solve_decision. Defined.

(** [class TaskCreate(TaskBase)]: the validated create payload. *)
Record TaskCreate := mkTaskCreate {
  c_title : string;
  c_description : option string;
  c_status : TaskStatus;
  c_priority : TaskPriority;
  c_due_date : option Z;
  c_tags : list string
}.

(** A create payload with only [title] given: the other [TaskBase]
    fields take their defaults ([PENDING], [MEDIUM], no due date, []). *)
Definition TaskCreate_of_title (t : string) : TaskCreate :=
  mkTaskCreate t None PENDING MEDIUM None [].

(** [class TaskUpdate(SQLModel)] read through
    [model_dump(exclude_unset=True)], for the payloads that supply no
    explicit [null] to the NOT NULL columns [title], [status], [priority]
    and [tags] (the general payload is [TaskUpdateIn] below): [None] is a
    field left unset, [Some v] a supplied field.  For the nullable columns
    [description] and [due_date] the supplied value may itself be [None]
    (explicit null). *)
Record TaskUpdate := mkTaskUpdate {
  u_title : option string;
  u_description : option (option string);
  u_status : option TaskStatus;
  u_priority : option TaskPriority;
  u_due_date : option (option Z);
  u_tags : option (list string)
}.

Definition TaskUpdate_empty : TaskUpdate :=
  mkTaskUpdate None None None None None None.

(** A PATCH body carrying only [status] (what the web UI sends to mark a
    task done or pending). *)
Definition TaskUpdate_status (st : TaskStatus) : TaskUpdate :=
  mkTaskUpdate None None (Some st) None None None.





(** Field constraints of [TaskBase]:
    [title: str = Field(min_length=1, max_length=200)] and
    [description: Optional[str] = Field(default=None, max_length=1000)].
    Pydantic checks the length of the string as given; nothing strips it. *)
Definition title_ok (t : string) : bool :=
  (1 <=? String.length t)%nat && (String.length t <=? 200)%nat.

Definition description_ok (d : option string) : bool :=
  match d with
  | None => true
  | Some s => (String.length s <=? 1000)%nat
  end.

Inductive ValidationError := TitleInvalid | DescriptionInvalid.

(** Construction of a [TaskCreate] by pydantic: [inl] is the raised
    ValidationError, [inr] the validated model. *)
Definition validate_TaskCreate (c : TaskCreate) : ValidationError + TaskCreate :=
  if negb (title_ok (c_title c)) then inl TitleInvalid
  else if negb (description_ok (c_description c)) then inl DescriptionInvalid
  else inr c.

(** The task table. *)
Abbreviation DB := (list Task).

(** The [where Task.id == task_id, Task.user_id == user_id] predicate. *)
Definition matches (task_id uid : Z) (t : Task) : bool :=
  (id t =? task_id) && (user_id t =? uid).

(** [if status: statement = statement.where(Task.status == status)] *)
Definition status_filter (st : option TaskStatus) (t : Task) : bool :=
  match st with
  | None => true
  | Some s => bool_decide (status t = s)
  end.

(** The setattr loop over [task_in.model_dump(exclude_unset=True)]. *)
Definition apply_update (t : Task) (u : TaskUpdate) : Task :=
  mkTask (id t) (user_id t)
    (default (title t) (u_title u))
    (default (description t) (u_description u))
    (default (status t) (u_status u))
    (default (priority t) (u_priority u))
    (default (due_date t) (u_due_date u))
    (default (tags t) (u_tags u))
    (created_at t) (updated_at t) (completed_at t).

(** Assignments [task.updated_at = v] and [task.completed_at = v]. *)
Definition set_updated_at (v : Z) (t : Task) : Task :=
  mkTask (id t) (user_id t) (title t) (description t) (status t) (priority t)
    (due_date t) (tags t) (created_at t) v (completed_at t).

Definition set_completed_at (v : option Z) (t : Task) : Task :=
  mkTask (id t) (user_id t) (title t) (description t) (status t) (priority t)
    (due_date t) (tags t) (created_at t) (updated_at t) v.

(** The committed row replaces the first row the [get] selected. *)
Fixpoint replace_first (task_id uid : Z) (t' : Task) (db : DB) : DB :=
  match db with
  | [] => []
  | r :: rs => if matches task_id uid r then t' :: rs
               else r :: replace_first task_id uid t' rs
  end.

(** The first row with a given key removed ([session.delete(task)]). *)
Fixpoint remove_first (task_id uid : Z) (db : DB) : DB :=
  match db with
  | [] => []
  | r :: rs => if matches task_id uid r then rs else r :: remove_first task_id uid rs
  end.

(** [class TaskService]. *)
Module TaskService.

(** [TaskService.create]: [Task(user_id=user_id, **task_in.model_dump())];
    [id] from [uuid4] (passed in as [new_id]), [created_at] and
    [updated_at] from [datetime.utcnow], [completed_at] left [None];
    the row is added to the table. *)
Definition create (db : DB) (uid : Z) (task_in : TaskCreate)
    (new_id now : Z) : Task * DB :=
  let task := mkTask new_id uid (c_title task_in) (c_description task_in)
                (c_status task_in) (c_priority task_in) (c_due_date task_in)
                (c_tags task_in) now now None in
  (task, db ++ [task]).

(** [TaskService.get]: [result.first()] of the filtered select. *)
Definition get (db : DB) (task_id uid : Z) : option Task :=
  List.find (matches task_id uid) db.

(** [TaskService.update]. *)
Definition update (db : DB) (task_id uid : Z) (task_in : TaskUpdate) (now : Z)
    : option Task * DB :=
  match get db task_id uid with
  | None => (None, db)
  | Some task =>
      let task1 := apply_update task task_in in
      (* task.updated_at = datetime.utcnow() *)
      let task2 := set_updated_at now task1 in
      (* if task_in.status == TaskStatus.DONE: task.completed_at = utcnow() *)
      let task3 := if bool_decide (u_status task_in = Some DONE)
                   then set_completed_at (Some now) task2 else task2 in
      (Some task3, replace_first task_id uid task3 db)
  end.

(** [TaskService.delete]. *)
Definition delete (db : DB) (task_id uid : Z) : bool * DB :=
  match get db task_id uid with
  | None => (false, db)
  | Some _ => (true, remove_first task_id uid db)
  end.

(** [TaskService.list(user_id, status=None, limit=20, offset=0)]:
    owner filter, optional status filter, then [offset] and [limit], over
    the rows in the order [scan] in which the database produces them for
    this one query.  The select has no [order_by], so SQL fixes no such
    order: [list_results] below ranges over every order of the table. *)
Definition list (scan : DB) (uid : Z) (st : option TaskStatus)
    (limit offset : nat) : DB :=
  firstn limit (skipn offset
    (List.filter (fun t => (user_id t =? uid) && status_filter st t) scan)).

(** The results one execution of [TaskService.list] may return on the
    table [db]: the database may produce the rows in any order, each query
    on its own. *)
Definition list_results (db : DB) (uid : Z) (st : option TaskStatus)
    (limit offset : nat) (rows : DB) : Prop :=
  exists scan, scan ≡ₚ db /\ rows = list scan uid st limit offset.


End TaskService.

(** Keyword arguments of a call [TaskService.list(user_id, ...)]: one
    constructor per parameter and [KwOther] for a keyword that names no
    parameter ([due_before], [due_after], [tags], [priority], ...). *)
Inductive ListKwarg :=
  | KwStatus (v : option TaskStatus)
  | KwLimit (v : nat)
  | KwOffset (v : nat)
  | KwOther (name : string).

Inductive CallError := TypeError (msg : string).

(** Python's binding of the keyword arguments, left to right, from the
    defaults [status=None, limit=20, offset=0]; the first keyword that
    names no parameter raises [TypeError]. *)
Definition bind_list_kwarg (acc : string + (option TaskStatus * nat * nat)) (k : ListKwarg)
    : string + (option TaskStatus * nat * nat) :=
  match acc with
  | inl name => inl name
  | inr (st, l, o) =>
      match k with
      | KwStatus v => inr (v, l, o)
      | KwLimit v => inr (st, v, o)
      | KwOffset v => inr (st, l, v)
      | KwOther name => inl name
      end
  end.

Definition call_list (scan : DB) (uid : Z) (kwargs : list ListKwarg) : CallError + DB :=
  match fold_left bind_list_kwarg kwargs (inr (None, 20%nat, 0%nat)) with
  | inl name => inl (TypeError ("list() got an unexpected keyword argument '" +:+ name +:+ "'"))
  | inr (st, l, o) => inr (TaskService.list scan uid st l o)
  end.




(** The request-level create: the payload is validated by pydantic before
    [TaskService.create] is called; a ValidationError stores nothing. *)
Definition createTask (db : DB) (uid : Z) (raw : TaskCreate) (new_id now : Z)
    : (ValidationError + Task) * DB :=
  match validate_TaskCreate raw with
  | inl e => (inl e, db)
  | inr task_in => let '(t, db') := TaskService.create db uid task_in new_id now in (inr t, db')
  end.

End Web.

(* ===================================================================== *)
(** ** Phase I: console app *)
(* ===================================================================== *)

Module Console.

(** [TaskStatus = Literal["pending", "done"]] *)
Inductive TaskStatus := pending | done.

#[global] Instance Console_TaskStatus_eq_dec : EqDecision TaskStatus.
Proof. solve_decision. Defined.

(** [@dataclass class Task]. *)
Record Task := mkTask {
  id : Z;
  title : string;
  description : option string;
  status : TaskStatus;
  created_at : Z;
  completed_at : option Z
}.

(** The dataclass-generated [__eq__]: field-wise equality. *)
#[global] Instance Console_Task_eq_dec : EqDecision Task.
Proof. solve_decision. Defined.

(** [Task.mark_done]: [status = "done"], [completed_at = datetime.now()]. *)
Definition mark_done (now : Z) (t : Task) : Task :=
  mkTask (id t) (title t) (description t) done (created_at t) (Some now).

(** [Task.mark_pending]: [status = "pending"], [completed_at = None]. *)
Definition mark_pending (t : Task) : Task :=
  mkTask (id t) (title t) (description t) pending (created_at t) None.

(** The Python heap the storage lives in: [Task] objects and [list]
    objects are cells addressed by references; one allocation counter
    [fresh] serves both.  A [list] cell holds references to [Task]
    objects, so two lists may share the same task objects. *)
Record State := mkState {
  objs : gmap positive Task;
  lists : gmap positive (list positive);
  fresh : positive;
  (** [self._tasks]: the reference of the storage's list. *)
  tasks_loc : positive;
  (** [self._next_id] *)
  next_id : Z
}.

Definition read_list (s : State) (l : positive) : list positive :=
  default [] (lists s !! l).

Definition write_list (s : State) (l : positive) (v : list positive) : State :=
  mkState (objs s) (<[l := v]> (lists s)) (fresh s) (tasks_loc s) (next_id s).

Definition write_obj (s : State) (o : positive) (t : Task) : State :=
  mkState (<[o := t]> (objs s)) (lists s) (fresh s) (tasks_loc s) (next_id s).

(** [TaskStorage.__init__]: [self._tasks = []], [self._next_id = 1]. *)
Definition init : State := mkState ∅ {[ 1%positive := [] ]} 2 1 1.

(** The tasks currently in [self._tasks], dereferenced. *)
Definition stored (s : State) : list Task :=
  omap (fun o => objs s !! o) (read_list s (tasks_loc s)).

(** [task.id == task_id] on a reference. *)
Definition has_id (s : State) (task_id : Z) (o : positive) : bool :=
  match objs s !! o with Some t => id t =? task_id | None => false end.

Definition status_is (s : State) (st : TaskStatus) (o : positive) : bool :=
  match objs s !! o with Some t => bool_decide (status t = st) | None => false end.

(** Keyword arguments of [TaskStorage.update(task_id, **kwargs)]: one
    constructor per attribute of [Task] ([hasattr] is true) and [KOther]
    for a name that is no attribute ([hasattr] is false, skipped). *)
Inductive Kwarg :=
  | KId (v : Z)
  | KTitle (v : string)
  | KDescription (v : option string)
  | KStatus (v : TaskStatus)
  | KCreatedAt (v : Z)
  | KCompletedAt (v : option Z)
  | KOther (name : string).

(** [if hasattr(task, key): setattr(task, key, value)] *)
Definition setattr (t : Task) (k : Kwarg) : Task :=
  match k with
  | KId v => mkTask v (title t) (description t) (status t) (created_at t) (completed_at t)
  | KTitle v => mkTask (id t) v (description t) (status t) (created_at t) (completed_at t)
  | KDescription v => mkTask (id t) (title t) v (status t) (created_at t) (completed_at t)
  | KStatus v => mkTask (id t) (title t) (description t) v (created_at t) (completed_at t)
  | KCreatedAt v => mkTask (id t) (title t) (description t) (status t) v (completed_at t)
  | KCompletedAt v => mkTask (id t) (title t) (description t) (status t) (created_at t) v
  | KOther _ => t
  end.

(** [list.remove(x)]: drop the first element [== x]. *)
Fixpoint remove_first (eqb : positive -> bool) (l : list positive) : list positive :=
  match l with
  | [] => []
  | o :: os => if eqb o then os else o :: remove_first eqb os
  end.

(** [class TaskStorage]. *)
Module TaskStorage.

(** [TaskStorage.create]: a new [Task] object with [id=self._next_id]
    (default [status="pending"], [created_at=now], [completed_at=None]),
    appended to [self._tasks]; then [self._next_id += 1]. *)
Definition create (s : State) (ttl : string) (desc : option string) (now : Z)
    : positive * State :=
  let o := fresh s in
  let task := mkTask (next_id s) ttl desc pending now None in
  (o, mkState (<[o := task]> (objs s))
              (<[tasks_loc s := read_list s (tasks_loc s) ++ [o]]> (lists s))
              (Pos.succ o) (tasks_loc s) (next_id s + 1)).

(** [TaskStorage.get]: the first task object with the id, by reference. *)
Definition get (s : State) (task_id : Z) : option positive :=
  List.find (has_id s task_id) (read_list s (tasks_loc s)).

(** [TaskStorage.update]: mutates the task object in place. *)
Definition update (s : State) (task_id : Z) (kwargs : list Kwarg)
    : option positive * State :=
  match get s task_id with
  | None => (None, s)
  | Some o =>
      match objs s !! o with
      | None => (Some o, s)
      | Some t => (Some o, write_obj s o (fold_left setattr kwargs t))
      end
  end.

(** [TaskStorage.delete]: [self._tasks.remove(task)]; the dataclass [==]
    compares the objects' field values. *)
Definition delete (s : State) (task_id : Z) : bool * State :=
  match get s task_id with
  | None => (false, s)
  | Some o =>
      let same := fun o' => bool_decide (objs s !! o' = objs s !! o) in
      (true, write_list s (tasks_loc s) (remove_first same (read_list s (tasks_loc s))))
  end.

(** [TaskStorage.list]: [self._tasks.copy()] or a list comprehension; both
    allocate a new list object holding the same task references. *)
Definition list (s : State) (st : option TaskStatus) : positive * State :=
  let r := fresh s in
  let contents := match st with
                  | None => read_list s (tasks_loc s)
                  | Some st => List.filter (status_is s st) (read_list s (tasks_loc s))
                  end in
  (r, mkState (objs s) (<[r := contents]> (lists s)) (Pos.succ r)
              (tasks_loc s) (next_id s)).

End TaskStorage.

(** [CommandHandler.done] / [CommandHandler.undo]: [task.mark_done()] /
    [task.mark_pending()] on the object returned by [get]. *)
Definition mutate_task (s : State) (task_id : Z) (f : Task -> Task) : State :=
  match TaskStorage.get s task_id with
  | None => s
  | Some o => match objs s !! o with
              | None => s
              | Some t => write_obj s o (f t)
              end
  end.

(** The calls a client of [TaskStorage] makes. *)
Inductive Op :=
  | OCreate (ttl : string) (desc : option string) (now : Z)
  | OGet (task_id : Z)
  | OList (st : option TaskStatus)
  | OUpdate (task_id : Z) (kwargs : list Kwarg)
  | ODelete (task_id : Z)
  | OMarkDone (task_id : Z) (now : Z)
  | OMarkPending (task_id : Z).

Definition exec (s : State) (op : Op) : State :=
  match op with
  | OCreate ttl desc now => snd (TaskStorage.create s ttl desc now)
  | OGet _ => s
  | OList st => snd (TaskStorage.list s st)
  | OUpdate task_id kwargs => snd (TaskStorage.update s task_id kwargs)
  | ODelete task_id => snd (TaskStorage.delete s task_id)
  | OMarkDone task_id now => mutate_task s task_id (mark_done now)
  | OMarkPending task_id => mutate_task s task_id mark_pending
  end.

Definition run (s : State) (ops : list Op) : State := fold_left exec ops s.

Definition reachable (s : State) : Prop := exists ops, s = run init ops.

(** Heap well-formedness: every allocated list lies below the allocation
    counter, the storage's own list included. *)
Definition wf (s : State) : Prop :=
  (tasks_loc s < fresh s)%positive /\
  forall l v, lists s !! l = Some v -> (l < fresh s)%positive.

(** Calls that assign the [id] attribute through [update(task_id, **kwargs)]. *)
Definition sets_id (k : Kwarg) : bool :=
  match k with KId _ => true | _ => false end.

Definition op_sets_id (op : Op) : bool :=
  match op with OUpdate _ kwargs => existsb sets_id kwargs | _ => false end.

(** The id discipline of the storage: the references in [self._tasks] are
    allocated task objects, the stored ids are pairwise distinct and all
    below [self._next_id]. *)
Definition ids_ok (s : State) : Prop :=
  wf s /\
  (forall o, o ∈ read_list s (tasks_loc s) ->
     (o < fresh s)%positive /\ is_Some (objs s !! o)) /\
  NoDup (map id (stored s)) /\
  (forall i, i ∈ map id (stored s) -> i < next_id s).

(** States reached by storage calls none of which passes [id=...] to
    [update]. *)
Definition reachable_without_id_kwarg (s : State) : Prop :=
  exists ops, forallb (fun op => negb (op_sets_id op)) ops = true /\ s = run init ops.

(** [class CommandHandler]: the console commands over the storage.  The
    f-string [{task_id}] of an [int] is its decimal text ([pretty]). *)
Module CommandHandler.

Definition not_found (task_id : Z) : string :=
  "Task " +:+ pretty task_id +:+ " not found.".

(** [CommandHandler.add]: the created task has [id=self._next_id] and the
    given title. *)
Definition add (s : State) (ttl : string) (desc : option string) (now : Z)
    : string * State :=
  let '(_, s') := TaskStorage.create s ttl desc now in
  ("Created task #" +:+ pretty (next_id s) +:+ ": " +:+ ttl, s').

(** [CommandHandler.done] *)
Definition done (s : State) (task_id now : Z) : string * State :=
  match TaskStorage.get s task_id with
  | None => (not_found task_id, s)
  | Some _ => ("Marked task #" +:+ pretty task_id +:+ " as done.",
               mutate_task s task_id (mark_done now))
  end.

(** [CommandHandler.undo] *)
Definition undo (s : State) (task_id : Z) : string * State :=
  match TaskStorage.get s task_id with
  | None => (not_found task_id, s)
  | Some _ => ("Marked task #" +:+ pretty task_id +:+ " as pending.",
               mutate_task s task_id mark_pending)
  end.

(** [CommandHandler.delete] *)
Definition delete (s : State) (task_id : Z) : string * State :=
  let '(ok, s') := TaskStorage.delete s task_id in
  if ok then ("Deleted task #" +:+ pretty task_id +:+ ".", s')
  else (not_found task_id, s').

(** Python truthiness of an [Optional[str]]: [None] and [""] are false. *)
Definition truthy (v : option string) : option string :=
  match v with
  | Some x => if String.eqb x "" then None else Some x
  | None => None
  end.

(** The [updates] dict of [CommandHandler.edit], in insertion order. *)
Definition edit_updates (ttl desc : option string) : list Kwarg :=
  match truthy ttl with Some v => [KTitle v] | None => [] end ++
  match truthy desc with Some v => [KDescription (Some v)] | None => [] end.

(** [CommandHandler.edit] *)
Definition edit (s : State) (task_id : Z) (ttl desc : option string) : string * State :=
  let '(r, s') := TaskStorage.update s task_id (edit_updates ttl desc) in
  match r with
  | Some _ => ("Updated task #" +:+ pretty task_id +:+ ".", s')
  | None => (not_found task_id, s')
  end.

End CommandHandler.

(** The commands of the console REPL that reach [CommandHandler]. *)
Inductive Command :=
  | CAdd (ttl : string) (desc : option string) (now : Z)
  | CDone (task_id now : Z)
  | CUndo (task_id : Z)
  | CDelete (task_id : Z)
  | CEdit (task_id : Z) (ttl desc : option string).

Definition run_command (s : State) (c : Command) : string * State :=
  match c with
  | CAdd ttl desc now => CommandHandler.add s ttl desc now
  | CDone i now => CommandHandler.done s i now
  | CUndo i => CommandHandler.undo s i
  | CDelete i => CommandHandler.delete s i
  | CEdit i ttl desc => CommandHandler.edit s i ttl desc
  end.

Definition run_commands (s : State) (cs : list Command) : State :=
  fold_left (fun s c => snd (run_command s c)) cs s.

End Console.

(* ===================================================================== *)
(** ** Web frontend (task-form.tsx, task-list.tsx) *)
(* ===================================================================== *)

Module Frontend.

(** The characters [String.prototype.trim] removes, among the 8-bit code
    units: TAB, LF, VT, FF, CR, SPACE and NO-BREAK SPACE. *)
Definition is_ws (c : ascii) : bool :=
  existsb (Nat.eqb (nat_of_ascii c)) [9; 10; 11; 12; 13; 32; 160]%nat.

Fixpoint ltrim (s : string) : string :=
  match s with
  | EmptyString => EmptyString
  | String c r => if is_ws c then ltrim r else s
  end.

Fixpoint rtrim (s : string) : string :=
  match s with
  | EmptyString => EmptyString
  | String c r =>
      match rtrim r with
      | EmptyString => if is_ws c then EmptyString else String c EmptyString
      | r' => String c r'
      end
  end.

(** [s.trim()] *)
Definition trim (s : string) : string := rtrim (ltrim s).

(** [s.split(sep)] for a one-character separator: the pieces between
    separators, empty pieces included; [""] splits into [[""]]. *)
Fixpoint split_on (sep : ascii) (s : string) : list string :=
  match s with
  | EmptyString => [EmptyString]
  | String c r =>
      let ps := split_on sep r in
      if Ascii.eqb c sep then EmptyString :: ps
      else match ps with
           | p :: ps' => String c p :: ps'
           | [] => [String c EmptyString]
           end
  end.

Fixpoint has_char (c : ascii) (s : string) : bool :=
  match s with
  | EmptyString => false
  | String x r => Ascii.eqb x c || has_char c r
  end.

(** The [tags] field of the create and update payloads of [TaskForm]:
    [data.tags ? data.tags.split(',').map((t) => t.trim()).filter(Boolean) : []]. *)
Definition parse_tags (tags : string) : list string :=
  if String.eqb tags "" then []
  else List.filter (fun t => negb (String.eqb t "")) (map trim (split_on "," tags)).

(** The default value of the tags input when editing a task:
    [task?.tags?.join(', ') || '']. *)
Definition join_tags (tags : list string) : string := String.concat ", " tags.

(** Keyboard navigation of [TaskList]: [selectedIndex] starts at [-1]. *)
Inductive NavEvent := NavNext | NavPrev.

(** [handleNavNext]: [if (tasks) setSelectedIndex(prev => Math.min(prev + 1,
    tasks.length - 1))] (an empty array is truthy);
    [handleNavPrev]: [setSelectedIndex(prev => Math.max(prev - 1, 0))]. *)
Definition nav_step (tasks : option (list Web.Task)) (idx : Z) (e : NavEvent) : Z :=
  match e with
  | NavNext =>
      match tasks with
      | Some ts => Z.min (idx + 1) (Z.of_nat (length ts) - 1)
      | None => idx
      end
  | NavPrev => Z.max (idx - 1) 0
  end.

Definition nav_run (tasks : option (list Web.Task)) (es : list NavEvent) : Z :=
  fold_left (nav_step tasks) es (-1).

(** The API call [handleToggle] makes. *)
Inductive Mutation := MarkTaskDone (task_id : Z) | MarkTaskPending (task_id : Z).

(** [handleToggle]: acts only when [selectedIndex] addresses a task. *)
Definition handle_toggle (tasks : option (list Web.Task)) (idx : Z) : option Mutation :=
  match tasks with
  | None => None
  | Some ts =>
      if (0 <=? idx) && (idx <? Z.of_nat (length ts)) then
        match nth_error ts (Z.to_nat idx) with
        | Some t => Some (if bool_decide (Web.status t = Web.DONE)
                          then MarkTaskPending (Web.id t) else MarkTaskDone (Web.id t))
        | None => None
        end
      else None
  end.

End Frontend.

(* ===================================================================== *)
(** ** Properties of the web TaskService *)
(* ===================================================================== *)

Module WebFacts.
Import Web.

(** Sample rows: owner 7, created at time 1. *)
Local Definition row (i : Z) (p : TaskPriority) (tg : list string) (due : option Z) : Task :=
  mkTask i 7 "t" None PENDING p due tg 1 1 None.

Example create_defaults :
  createTask [] 7 (TaskCreate_of_title "Buy groceries") 1 0
  = (inr (mkTask 1 7 "Buy groceries" None PENDING MEDIUM None [] 0 0 None),
     [mkTask 1 7 "Buy groceries" None PENDING MEDIUM None [] 0 0 None]).
Proof. reflexivity. Qed.

(** *** Helper lemmas *)

Lemma find_none_forall {A} (f : A -> bool) (l : list A) :
  (forall x, In x l -> f x = false) -> List.find f l = None.
Proof.
  induction l as [|x l IH]; intros H; simpl; [done|].
  rewrite (H x (or_introl eq_refl)). apply IH. intros y Hy. apply H. by right.
Qed.

Lemma get_matches (db : DB) (tid uid : Z) (t : Task) :
  TaskService.get db tid uid = Some t -> matches tid uid t = true.
Proof. unfold TaskService.get. intros H. by apply find_some in H as [_ H]. Qed.

(** The primary key: two rows of the table with the same [id] are one row. *)
Lemma key_unique (db : DB) (r t : Task) :
  NoDup (map id db) -> In r db -> In t db -> id r = id t -> r = t.
Proof.
  induction db as [|x db IH]; simpl; [tauto|].
  intros Hnd Hr Ht Hid. inversion Hnd as [|? ? Hx Hnd']; subst.
  destruct Hr as [<-|Hr], Ht as [<-|Ht]; try done.
  - exfalso. apply Hx. apply list_elem_of_In. rewrite Hid. apply in_map, Ht.
  - exfalso. apply Hx. apply list_elem_of_In. rewrite <- Hid. apply in_map, Hr.
  - by apply IH.
Qed.

Lemma get_replace_first (db : DB) (tid uid : Z) (t t' : Task) :
  TaskService.get db tid uid = Some t -> matches tid uid t' = true ->
  TaskService.get (replace_first tid uid t' db) tid uid = Some t'.
Proof.
  unfold TaskService.get. induction db as [|r db IH]; simpl; [done|].
  intros Hf Hm. destruct (matches tid uid r) eqn:Hr; simpl.
  - by rewrite Hm.
  - rewrite Hr. by apply IH.
Qed.

Lemma matches_update_fields (tid uid : Z) (t : Task) (u : TaskUpdate) (now : Z) :
  matches tid uid t = true ->
  matches tid uid (set_updated_at now (apply_update t u)) = true /\
  matches tid uid (set_completed_at (Some now) (set_updated_at now (apply_update t u))) = true.
Proof. unfold matches; simpl. done. Qed.

(** A successful update stores the row it returns. *)
Lemma get_after_update (db : DB) (tid uid : Z) (u : TaskUpdate) (now : Z) (t : Task) :
  TaskService.get db tid uid = Some t ->
  TaskService.get (snd (TaskService.update db tid uid u now)) tid uid
  = fst (TaskService.update db tid uid u now).
Proof.
  intros Hg. pose proof (get_matches _ _ _ _ Hg) as Hm.
  destruct (matches_update_fields tid uid t u now Hm) as [H1 H2].
  unfold TaskService.update. rewrite Hg. simpl.
  case_bool_decide; eapply get_replace_first; eauto.
Qed.

Lemma List_filter_sublist {A} (f : A -> bool) (l : list A) : List.filter f l `sublist_of` l.
Proof.
  induction l as [|x l IH]; simpl; [done|].
  destruct (f x); [by apply sublist_skip|by apply sublist_cons].
Qed.

(** *** C1: the status / completed_at coupling *)

(** Claim C1 (evaluation at the failing input).  A task created as "Buy
    groceries", marked done at time 5 by an update with [status=done] and
    then set back to [pending] at time 10 keeps [completed_at = 5] while its
    status is [pending]: the update sets [completed_at] when the new status is
    [done] and never clears it.  Likewise a create payload with
    [status=done] yields a stored task with [completed_at = None]. *)
Theorem update_away_from_done_keeps_completed_at :
  (let '(_, db1) := createTask [] 7 (TaskCreate_of_title "Buy groceries") 1 0 in
   let '(_, db2) := TaskService.update db1 1 7 (TaskUpdate_status DONE) 5 in
   let '(r, _) := TaskService.update db2 1 7 (TaskUpdate_status PENDING) 10 in
   exists t, r = Some t /\ status t = PENDING /\ completed_at t = Some 5)
  /\
  (let '(r, db1) := createTask [] 7 (mkTaskCreate "Buy groceries" None DONE MEDIUM None []) 1 0 in
   exists t, r = inr t /\ db1 = [t] /\ status t = DONE /\ completed_at t = None).
Proof. vm_compute. split; eexists; repeat split. Qed.

(** *** C2: another owner's task is reported like a missing one *)

(** Claim C2.  For a stored task [t] of owner [user_id t] and an owner [B]
    distinct from it, [get], [update] and [delete] with [t]'s id and [B]
    give exactly the results they give for an id that is in no row: [None]
    (resp. [False]) and the table unchanged.  [NoDup (map id db)] is the
    primary key on [Task.id]. *)
Theorem wrong_owner_same_as_missing_id (db : DB) (t : Task) (B missing : Z)
    (Hkey : NoDup (map id db)) (Hin : t ∈ db) (Howner : user_id t <> B)
    (Hmissing : missing ∉ map id db) :
  TaskService.get db (id t) B = None /\ TaskService.get db missing B = None /\
  (forall (u : TaskUpdate) (now : Z),
     TaskService.update db (id t) B u now = (None, db) /\
     TaskService.update db missing B u now = (None, db)) /\
  TaskService.delete db (id t) B = (false, db) /\
  TaskService.delete db missing B = (false, db).
Proof.
  apply list_elem_of_In in Hin.
  assert (Hg1 : TaskService.get db (id t) B = None).
  { apply find_none_forall. intros x Hx. unfold matches.
    destruct (Z.eqb_spec (id x) (id t)) as [Hid|]; [|done].
    rewrite (key_unique db x t Hkey Hx Hin Hid).
    by apply andb_false_intro2, Z.eqb_neq. }
  assert (Hg2 : TaskService.get db missing B = None).
  { apply find_none_forall. intros x Hx. unfold matches.
    destruct (Z.eqb_spec (id x) missing) as [Hid|]; [|done].
    exfalso. apply Hmissing, list_elem_of_In. rewrite <- Hid. by apply in_map. }
  unfold TaskService.update, TaskService.delete. rewrite Hg1, Hg2. done.
Qed.

Lemma wrong_owner_same_as_missing_id_witness :
  let db := [mkTask 1 7 "a" None PENDING MEDIUM None [] 0 0 None;
             mkTask 2 8 "b" None DONE HIGH (Some 3) ["work"] 0 4 (Some 4)] in
  NoDup (map id db) /\ (mkTask 1 7 "a" None PENDING MEDIUM None [] 0 0 None ∈ db) /\
  7 <> 8 /\ (9 ∉ map id db) /\
  TaskService.get db 1 8 = None /\ TaskService.get db 9 8 = None.
Proof.
  intros db.
  assert (Hk : NoDup (map id db)) by (apply (bool_decide_unpack _); vm_compute; reflexivity).
  assert (Hi : mkTask 1 7 "a" None PENDING MEDIUM None [] 0 0 None ∈ db) by (apply (bool_decide_unpack _); vm_compute; reflexivity).
  assert (Hm : 9 ∉ map id db) by (apply (bool_decide_unpack _); vm_compute; reflexivity).
  destruct (wrong_owner_same_as_missing_id db _ 8 9 Hk Hi ltac:(simpl; lia) Hm)
    as (H1 & H2 & _).
  split; [exact Hk|]. split; [exact Hi|]. split; [lia|].
  split; [exact Hm|]. split; [exact H1|exact H2].
Defined.

(** *** C3: title validation on create *)

(** Claim C3 (evaluation at the failing input).  [createTask] rejects the
    empty title with a ValidationError and stores nothing, but the
    whitespace-only title [" "] passes [Field(min_length=1)] and is stored
    as given. *)
Theorem whitespace_title_is_stored :
  createTask [] 7 (TaskCreate_of_title "") 1 0 = (inl TitleInvalid, []) /\
  createTask [] 7 (TaskCreate_of_title " ") 1 0
  = (inr (mkTask 1 7 " " None PENDING MEDIUM None [] 0 0 None),
     [mkTask 1 7 " " None PENDING MEDIUM None [] 0 0 None]).
Proof. split; reflexivity. Qed.

(** *** C7: the frame of a partial update *)

(** Claim C7.  A successful [TaskService.update] returns and stores a row
    whose every updatable field is the supplied value if supplied and the
    previous value otherwise; [id], [user_id] and [created_at] are
    unchanged, [updated_at] is the current time, and [completed_at] changes
    only through the status coupling. *)
Theorem update_changes_only_supplied_fields (db : DB) (tid uid : Z)
    (u : TaskUpdate) (now : Z) (t : Task)
    (Hget : TaskService.get db tid uid = Some t) :
  exists t',
    fst (TaskService.update db tid uid u now) = Some t' /\
    TaskService.get (snd (TaskService.update db tid uid u now)) tid uid = Some t' /\
    id t' = id t /\ user_id t' = user_id t /\
    title t' = default (title t) (u_title u) /\
    description t' = default (description t) (u_description u) /\
    status t' = default (status t) (u_status u) /\
    priority t' = default (priority t) (u_priority u) /\
    due_date t' = default (due_date t) (u_due_date u) /\
    tags t' = default (tags t) (u_tags u) /\
    created_at t' = created_at t /\
    updated_at t' = now /\
    completed_at t' = (if bool_decide (u_status u = Some DONE) then Some now
                       else completed_at t).
Proof.
  pose proof (get_after_update db tid uid u now t Hget) as Hst.
  unfold TaskService.update in *. rewrite Hget in Hst |- *. simpl in *.
  eexists. split; [reflexivity|]. split; [exact Hst|].
  case_bool_decide; simpl; repeat split.
Qed.

Lemma update_changes_only_supplied_fields_witness :
  let db := [mkTask 1 7 "a" (Some "d") PENDING LOW (Some 3) ["work"] 0 0 None] in
  TaskService.get db 1 7 = Some (mkTask 1 7 "a" (Some "d") PENDING LOW (Some 3) ["work"] 0 0 None) /\
  exists t', fst (TaskService.update db 1 7
                    (mkTaskUpdate (Some "b") None None (Some HIGH) None None) 9) = Some t' /\
             description t' = Some "d" /\ due_date t' = Some 3 /\ updated_at t' = 9.
Proof.
  intros db.
  assert (Hg : TaskService.get db 1 7
               = Some (mkTask 1 7 "a" (Some "d") PENDING LOW (Some 3) ["work"] 0 0 None))
    by reflexivity.
  split; [exact Hg|].
  destruct (update_changes_only_supplied_fields db 1 7
              (mkTaskUpdate (Some "b") None None (Some HIGH) None None) 9 _ Hg)
    as (t' & H1 & _ & _ & _ & _ & H2 & _ & _ & H3 & _ & _ & H4 & _).
  exists t'. repeat split; [exact H1|exact H2|exact H3|exact H4].
Defined.

Lemma fold_bind_list_error (kwargs : list ListKwarg) (name : string) :
  fold_left bind_list_kwarg kwargs (inl name) = inl name.
Proof. induction kwargs as [|k kwargs IH]; simpl; [done|exact IH]. Qed.

(** A call of [TaskService.list] with a keyword that names no parameter
    raises [TypeError], wherever that keyword stands. *)
Lemma call_list_unknown_kwarg (scan : DB) (uid : Z) (kwargs : list ListKwarg) (name : string) :
  In (KwOther name) kwargs -> exists msg, call_list scan uid kwargs = inl (TypeError msg).
Proof.
  intros Hin. unfold call_list.
  assert (H : forall acc, exists n,
             fold_left bind_list_kwarg kwargs acc = inl n).
  { induction kwargs as [|k kwargs IH]; intros acc; [done|].
    destruct Hin as [->|Hin].
    - simpl. destruct acc as [n|[[st l] o]]; simpl;
        eexists; apply fold_bind_list_error.
    - simpl. by apply IH. }
  destruct (H (inr (None, 20%nat, 0%nat))) as [n ->]. by eexists.
Qed.

Lemma filter_complement_perm (f : Task -> bool) (l : DB) :
  List.filter f l ++ List.filter (fun t => negb (f t)) l ≡ₚ l.
Proof.
  induction l as [|x l IH]; simpl; [done|].
  destruct (f x); simpl.
  - by constructor.
  - rewrite <- Permutation_middle. by constructor.
Qed.

Lemma filter_all_true (f : Task -> bool) (l : DB) :
  (forall t, In t l -> f t = true) -> List.filter f l = l.
Proof.
  induction l as [|x l IH]; intros H; simpl; [done|].
  rewrite (H x (or_introl eq_refl)), IH; [done|]. intros t Ht. apply H. by right.
Qed.

(** *** C4: due-date bounds *)

(** Claim C4 (code bug).  [TaskService.list(user_id, status=None,
    limit=20, offset=0)] has no due-date parameter: every call that passes
    [due_before] or [due_after] raises [TypeError] before a row is read,
    whatever the table and the other arguments.  No listing filtered by a
    due date is ever produced, so tasks with a null [due_date] are never
    excluded by one. *)
Theorem list_due_bound_raises (scan : DB) (uid : Z) (kwargs : list ListKwarg)
    (bound : string) :
  bound = "due_before" \/ bound = "due_after" ->
  In (KwOther bound) kwargs ->
  exists msg, call_list scan uid kwargs = inl (TypeError msg).
Proof. intros _. apply call_list_unknown_kwarg. Qed.

Lemma list_due_bound_raises_witness :
  exists msg, call_list [row 1 MEDIUM [] None] 7
                [KwStatus None; KwOther "due_before"] = inl (TypeError msg).
Proof.
  apply (list_due_bound_raises _ 7 _ "due_before"); [by left|right; by left].
Defined.

(** *** C5: tag filter *)

(** Claim C5 (code bug).  [TaskService.list] has no [tags] parameter: every
    call that passes a requested tag set raises [TypeError], whatever the
    table and the other arguments, so no listing filtered by tags is ever
    produced. *)
Theorem list_tags_raises (scan : DB) (uid : Z) (kwargs : list ListKwarg) :
  In (KwOther "tags") kwargs ->
  exists msg, call_list scan uid kwargs = inl (TypeError msg).
Proof. apply call_list_unknown_kwarg. Qed.

Lemma list_tags_raises_witness :
  exists msg, call_list [row 1 MEDIUM ["work"; "urgent"] None; row 2 MEDIUM ["personal"] None;
                         row 3 MEDIUM [] None] 7 [KwOther "tags"] = inl (TypeError msg).
Proof. apply list_tags_raises. by left. Defined.

(** *** C6: ordering *)

(** Claim C6 (code bug).  The select of [TaskService.list] has no
    [order_by]: a listing without status filter and with [offset=0] may
    return the owner's rows in any order at all, as long as they fit the
    limit.  In particular high/medium/low tasks may come back low, medium,
    high. *)
Theorem list_results_any_order (db : DB) (uid : Z) (limit : nat) (rows : DB) :
  rows ≡ₚ List.filter (fun t => (user_id t =? uid)) db ->
  (length rows <= limit)%nat ->
  TaskService.list_results db uid None limit 0 rows.
Proof.
  intros Hp Hl.
  exists (rows ++ List.filter (fun t => negb (user_id t =? uid)) db). split.
  - etransitivity; [apply Permutation_app_tail, Hp|]. apply filter_complement_perm.
  - unfold TaskService.list. simpl. rewrite List.filter_app.
    assert (Hown : forall t, In t rows -> (user_id t =? uid) = true).
    { intros t Ht. apply (Permutation_in t) in Hp; [|exact Ht].
      by apply filter_In in Hp as [_ Hp]. }
    rewrite (filter_all_true _ rows)
      by (intros t Ht; rewrite Hown by exact Ht; done).
    assert (Hnil : List.filter (fun t => (user_id t =? uid) && true)
                     (List.filter (fun t => negb (user_id t =? uid)) db) = []).
    { clear. induction db as [|x db IH]; simpl; [done|].
      destruct (user_id x =? uid) eqn:E; simpl; [exact IH|]. by rewrite E. }
    rewrite Hnil, app_nil_r. symmetry. by apply firstn_all2.
Qed.

Lemma list_results_any_order_witness :
  TaskService.list_results [row 1 HIGH [] None; row 2 MEDIUM [] None; row 3 LOW [] None] 7
    None 20 0 [row 3 LOW [] None; row 2 MEDIUM [] None; row 1 HIGH [] None].
Proof.
  apply list_results_any_order.
  - simpl. symmetry.
    exact (Permutation_rev [row 1 HIGH [] None; row 2 MEDIUM [] None; row 3 LOW [] None]).
  - simpl. lia.
Defined.

(** Updating a row with [status=done] stamps [completed_at] with the
    current time. *)
Lemma update_status_done (db : DB) (tid uid now : Z) (t : Task) :
  TaskService.get db tid uid = Some t ->
  exists t', fst (TaskService.update db tid uid (TaskUpdate_status DONE) now) = Some t' /\
             TaskService.get (snd (TaskService.update db tid uid (TaskUpdate_status DONE) now))
               tid uid = Some t' /\
             status t' = DONE /\ completed_at t' = Some now.
Proof.
  intros Hg. pose proof (get_after_update db tid uid (TaskUpdate_status DONE) now t Hg) as Hs.
  unfold TaskService.update in *. rewrite Hg in Hs |- *. simpl in *.
  eexists. split; [reflexivity|]. split; [exact Hs|]. done.
Qed.

End WebFacts.

(* ===================================================================== *)
(** ** Properties of the console TaskStorage *)
(* ===================================================================== *)

Module ConsoleFacts.
Import Console.

(** *** Heap well-formedness of reachable states *)

Lemma wf_init : wf init.
Proof.
  split; simpl; [lia|]. intros l v H. apply lookup_singleton_Some in H as [<- _]. lia.
Qed.

Lemma wf_exec (s : State) (op : Op) : wf s -> wf (exec s op).
Proof.
  intros [Ht Hl]. destruct op; simpl.
  - split; simpl; [lia|]. intros l v H.
    apply lookup_insert_Some in H as [[<- _]|[_ H]]; [lia|]. apply Hl in H. lia.
  - by split.
  - split; simpl; [lia|]. intros l v H.
    apply lookup_insert_Some in H as [[<- _]|[_ H]]; [lia|]. apply Hl in H. lia.
  - unfold TaskStorage.update. repeat case_match; by split.
  - unfold TaskStorage.delete. case_match; [|by split].
    split; simpl; [lia|]. intros l v Hlv.
    apply lookup_insert_Some in Hlv as [[<- _]|[_ Hlv]]; [lia|]. by apply Hl in Hlv.
  - unfold mutate_task. repeat case_match; by split.
  - unfold mutate_task. repeat case_match; by split.
Qed.

Lemma wf_run (ops : list Op) (s : State) : wf s -> wf (run s ops).
Proof.
  unfold run. revert s. induction ops as [|op ops IH]; intros s H; simpl; [done|].
  apply IH, wf_exec, H.
Qed.

Lemma reachable_wf (s : State) : reachable s -> wf s.
Proof. intros [ops ->]. apply wf_run, wf_init. Qed.

(** *** C10: [TaskStorage.list] does not touch the store *)

(** Claim C10.  On every reachable state and for every status argument,
    [TaskStorage.list] allocates a new list object [r] (no list lived at
    [r] before, and [r] is not [self._tasks]); the task objects, the
    storage's list and [_next_id] are unchanged; and any write to the
    returned list (append, remove, clear, ...) leaves [self._tasks] as it
    was. *)
Theorem list_leaves_store_unchanged (s : State) (st : option TaskStatus)
    (Hreach : reachable s) :
  let '(r, s') := TaskStorage.list s st in
  lists s !! r = None /\ r <> tasks_loc s /\
  objs s' = objs s /\ tasks_loc s' = tasks_loc s /\ next_id s' = next_id s /\
  read_list s' (tasks_loc s) = read_list s (tasks_loc s) /\
  stored s' = stored s /\
  forall v : list positive,
    read_list (write_list s' r v) (tasks_loc s) = read_list s (tasks_loc s).
Proof.
  destruct (reachable_wf s Hreach) as [Ht Hl].
  unfold TaskStorage.list, stored, read_list, write_list; simpl.
  assert (Hne : fresh s <> tasks_loc s) by lia.
  split.
  { destruct (lists s !! fresh s) eqn:E; [apply Hl in E; lia|done]. }
  split; [exact Hne|]. split; [done|]. split; [done|]. split; [done|].
  rewrite lookup_insert_ne by exact Hne.
  split; [done|]. split; [done|].
  intros v. rewrite !lookup_insert_ne by exact Hne. done.
Qed.

Lemma list_leaves_store_unchanged_witness :
  reachable (run init [OCreate "Buy groceries" None 0]) /\
  let '(r, s') := TaskStorage.list (run init [OCreate "Buy groceries" None 0]) None in
  r <> tasks_loc (run init [OCreate "Buy groceries" None 0]).
Proof.
  assert (Hr : reachable (run init [OCreate "Buy groceries" None 0]))
    by (exists [OCreate "Buy groceries" None 0]; reflexivity).
  split; [exact Hr|].
  pose proof (list_leaves_store_unchanged _ None Hr) as H.
  destruct (TaskStorage.list (run init [OCreate "Buy groceries" None 0]) None) as [r s'].
  exact (proj1 (proj2 H)).
Defined.

(** *** C8: marking done twice *)

(** Claim C8, counterexample.  [mark_done] at time 1 and again at time 2
    leaves [completed_at = 2], not the value 1 it had after the first call. *)
Lemma mark_done_twice_changes_completed_at :
  let t := mkTask 1 "Buy groceries" None pending 0 None in
  completed_at (mark_done 2 (mark_done 1 t)) <> completed_at (mark_done 1 t).
Proof. simpl. congruence. Qed.

(** Claim C8, as amended.  Marking a task done twice leaves it [done]; the
    second call re-stamps [completed_at] with the time of that call, both in
    the console [Task.mark_done] and in the web [TaskService.update] with
    [status=done]; the other fields of the console task are unchanged. *)
Theorem mark_done_twice_restamps (t : Task) (n1 n2 : Z)
    (db : list Web.Task) (tid uid : Z) (wt : Web.Task)
    (Hget : Web.TaskService.get db tid uid = Some wt) :
  (status (mark_done n2 (mark_done n1 t)) = done /\
   completed_at (mark_done n1 t) = Some n1 /\
   completed_at (mark_done n2 (mark_done n1 t)) = Some n2 /\
   id (mark_done n2 (mark_done n1 t)) = id t /\
   title (mark_done n2 (mark_done n1 t)) = title t /\
   description (mark_done n2 (mark_done n1 t)) = description t /\
   created_at (mark_done n2 (mark_done n1 t)) = created_at t) /\
  (exists t1 t2,
     fst (Web.TaskService.update db tid uid (Web.TaskUpdate_status Web.DONE) n1) = Some t1 /\
     fst (Web.TaskService.update
            (snd (Web.TaskService.update db tid uid (Web.TaskUpdate_status Web.DONE) n1))
            tid uid (Web.TaskUpdate_status Web.DONE) n2) = Some t2 /\
     Web.status t2 = Web.DONE /\
     Web.completed_at t1 = Some n1 /\ Web.completed_at t2 = Some n2).
Proof.
  split; [repeat split|].
  destruct (WebFacts.update_status_done db tid uid n1 wt Hget) as (t1 & H1 & Hg1 & _ & Hc1).
  destruct (WebFacts.update_status_done _ tid uid n2 t1 Hg1) as (t2 & H2 & _ & Hs2 & Hc2).
  exists t1, t2. repeat split; assumption.
Qed.

Lemma mark_done_twice_restamps_witness :
  completed_at (mark_done 2 (mark_done 1 (mkTask 1 "a" None pending 0 None))) = Some 2 /\
  exists t1 t2,
    fst (Web.TaskService.update [Web.mkTask 1 7 "a" None Web.PENDING Web.MEDIUM None [] 0 0 None]
           1 7 (Web.TaskUpdate_status Web.DONE) 1) = Some t1 /\
    Web.completed_at t1 = Some 1 /\ Web.completed_at t2 = Some 2 /\
    fst (Web.TaskService.update
           (snd (Web.TaskService.update
                   [Web.mkTask 1 7 "a" None Web.PENDING Web.MEDIUM None [] 0 0 None]
                   1 7 (Web.TaskUpdate_status Web.DONE) 1))
           1 7 (Web.TaskUpdate_status Web.DONE) 2) = Some t2.
Proof.
  destruct (mark_done_twice_restamps (mkTask 1 "a" None pending 0 None) 1 2
              [Web.mkTask 1 7 "a" None Web.PENDING Web.MEDIUM None [] 0 0 None] 1 7
              (Web.mkTask 1 7 "a" None Web.PENDING Web.MEDIUM None [] 0 0 None)
              eq_refl)
    as ((_ & _ & Hc & _) & t1 & t2 & H1 & H2 & _ & Hc1 & Hc2).
  split; [exact Hc|]. exists t1, t2. repeat split; assumption.
Defined.

(** *** C9: task ids *)

(** Claim C9 (evaluation at the failing input).  After two creates (ids 1
    and 2), [update(1, id=2)] passes the [hasattr] check and rewrites the
    first task's id, so two stored tasks share id 2. *)
Theorem update_id_kwarg_duplicates_ids :
  map id (stored (run init [OCreate "a" None 0; OCreate "b" None 0; OUpdate 1 [KId 2]]))
  = [2; 2] /\
  ~ NoDup (map id (stored (run init [OCreate "a" None 0; OCreate "b" None 0;
                                      OUpdate 1 [KId 2]]))).
Proof.
  assert (H : map id (stored (run init [OCreate "a" None 0; OCreate "b" None 0;
                                        OUpdate 1 [KId 2]])) = [2; 2])
    by (vm_compute; reflexivity).
  split; [exact H|]. rewrite H. intros Hn. inversion Hn as [|? ? Hx]; subst.
  apply Hx. by left.
Qed.

(** *** The id discipline under calls that do not assign [id] *)

Lemma omap_insert_absent (m : gmap positive Task) (f : positive) (t : Task)
    (l : list positive) :
  (forall o, o ∈ l -> o <> f) ->
  omap (fun o => <[f := t]> m !! o) l = omap (fun o => m !! o) l.
Proof.
  induction l as [|o l IH]; intros H; csimpl; [done|].
  rewrite lookup_insert_ne by (apply not_eq_sym, H; left).
  rewrite IH by (intros o' Ho'; apply H; by right). done.
Qed.

Lemma map_id_omap_insert (m : gmap positive Task) (o : positive) (t t' : Task)
    (l : list positive) :
  m !! o = Some t -> id t' = id t ->
  map id (omap (fun o' => <[o := t']> m !! o') l) = map id (omap (fun o' => m !! o') l).
Proof.
  intros Ho Hid. induction l as [|o' l IH]; csimpl; [done|].
  destruct (decide (o = o')) as [<-|Hne].
  - rewrite lookup_insert_eq, Ho. simpl. by rewrite Hid, IH.
  - rewrite lookup_insert_ne by done. destruct (m !! o'); simpl; by rewrite IH.
Qed.

Lemma remove_first_sublist (eqb : positive -> bool) (l : list positive) :
  remove_first eqb l `sublist_of` l.
Proof.
  induction l as [|o l IH]; simpl; [done|].
  destruct (eqb o); [by apply sublist_cons|by apply sublist_skip].
Qed.

Lemma omap_sublist (f : positive -> option Task) (l1 l2 : list positive) :
  l1 `sublist_of` l2 -> omap f l1 `sublist_of` omap f l2.
Proof.
  induction 1; csimpl; [done| |].
  - destruct (f x); [by apply sublist_skip|done].
  - destruct (f x); [by apply sublist_cons|done].
Qed.

Lemma map_sublist {A B} (f : A -> B) (l1 l2 : list A) :
  l1 `sublist_of` l2 -> map f l1 `sublist_of` map f l2.
Proof. induction 1; simpl; [done|by apply sublist_skip|by apply sublist_cons]. Qed.

Lemma setattr_keeps_id (kwargs : list Kwarg) (t : Task) :
  existsb sets_id kwargs = false -> id (fold_left setattr kwargs t) = id t.
Proof.
  revert t. induction kwargs as [|k kwargs IH]; intros t H; simpl in *; [done|].
  apply orb_false_iff in H as [Hk H]. rewrite IH by done. by destruct k.
Qed.

Lemma ids_ok_write_obj (s : State) (o : positive) (t t' : Task) :
  objs s !! o = Some t -> id t' = id t -> ids_ok s -> ids_ok (write_obj s o t').
Proof.
  intros Ho Hid (Hwf & Hp & Hnd & Hlt).
  assert (Hm : map id (stored (write_obj s o t')) = map id (stored s)).
  { unfold stored, read_list, write_obj; simpl. by apply map_id_omap_insert with t. }
  split; [exact Hwf|]. split.
  - intros o' Ho'. destruct (Hp o' Ho') as [Hf Hs]. split; [exact Hf|]. simpl.
    destruct (decide (o = o')) as [<-|Hne].
    + rewrite lookup_insert_eq. by eexists.
    + by rewrite lookup_insert_ne.
  - rewrite Hm. by split.
Qed.

Lemma get_in (s : State) (tid : Z) (o : positive) :
  TaskStorage.get s tid = Some o -> o ∈ read_list s (tasks_loc s).
Proof.
  unfold TaskStorage.get. intros H. apply find_some in H as [H _].
  by apply list_elem_of_In.
Qed.

Lemma ids_ok_mutate (s : State) (tid : Z) (f : Task -> Task) :
  (forall t, id (f t) = id t) -> ids_ok s -> ids_ok (mutate_task s tid f).
Proof.
  intros Hf Hi. unfold mutate_task.
  destruct (TaskStorage.get s tid) as [o|]; [|done].
  destruct (objs s !! o) as [t|] eqn:Ho; [|done].
  by apply ids_ok_write_obj with t.
Qed.

Lemma ids_ok_create (s : State) (ttl : string) (desc : option string) (now : Z) :
  ids_ok s -> ids_ok (snd (TaskStorage.create s ttl desc now)).
Proof.
  intros ([Ht Hl] & Hp & Hnd & Hlt).
  assert (Hst : stored (snd (TaskStorage.create s ttl desc now))
                = stored s ++ [mkTask (next_id s) ttl desc pending now None]).
  { unfold stored, read_list at 1; simpl. rewrite lookup_insert_eq. simpl.
    rewrite omap_app. csimpl. rewrite lookup_insert_eq.
    rewrite omap_insert_absent; [done|].
    intros o Ho ->. destruct (Hp _ Ho) as [Hf _]. lia. }
  split; [|split; [|split]].
  - split; simpl; [lia|]. intros l v Hlv.
    apply lookup_insert_Some in Hlv as [[<- _]|[_ Hlv]]; [lia|]. apply Hl in Hlv. lia.
  - intros o Ho. unfold read_list in Ho. simpl in Ho. rewrite lookup_insert_eq in Ho.
    simpl in Ho. apply elem_of_app in Ho as [Ho|Ho].
    + destruct (Hp o Ho) as [Hf Hs]. split; [simpl; lia|]. simpl.
      rewrite lookup_insert_ne by lia. exact Hs.
    + apply list_elem_of_singleton in Ho as ->. simpl.
      split; [lia|]. rewrite lookup_insert_eq. by eexists.
  - rewrite Hst, map_app. simpl. apply NoDup_app. split; [exact Hnd|].
    split; [|apply NoDup_singleton].
    intros i Hi ->%list_elem_of_singleton. apply Hlt in Hi. simpl in Hi. lia.
  - rewrite Hst, map_app. simpl. intros i Hi. apply elem_of_app in Hi as [Hi|Hi].
    + apply Hlt in Hi. lia.
    + apply list_elem_of_singleton in Hi as ->. lia.
Qed.

Lemma ids_ok_list (s : State) (st : option TaskStatus) :
  ids_ok s -> ids_ok (snd (TaskStorage.list s st)).
Proof.
  intros ([Ht Hl] & Hp & Hnd & Hlt).
  assert (Hne : fresh s <> tasks_loc s) by lia.
  assert (Hr : read_list (snd (TaskStorage.list s st)) (tasks_loc s)
               = read_list s (tasks_loc s)).
  { unfold read_list; simpl. by rewrite lookup_insert_ne. }
  assert (Hst : stored (snd (TaskStorage.list s st)) = stored s).
  { unfold stored.
    change (tasks_loc (snd (TaskStorage.list s st))) with (tasks_loc s).
    change (objs (snd (TaskStorage.list s st))) with (objs s).
    by rewrite Hr. }
  split; [|split; [|split]].
  - split; simpl; [lia|]. intros l v Hlv.
    apply lookup_insert_Some in Hlv as [[<- _]|[_ Hlv]]; [lia|]. apply Hl in Hlv. lia.
  - intros o Ho.
    change (tasks_loc (snd (TaskStorage.list s st))) with (tasks_loc s) in Ho.
    rewrite Hr in Ho. destruct (Hp o Ho) as [Hf Hs].
    split; [simpl; lia|exact Hs].
  - by rewrite Hst.
  - rewrite Hst. exact Hlt.
Qed.

Lemma ids_ok_delete (s : State) (tid : Z) :
  ids_ok s -> ids_ok (snd (TaskStorage.delete s tid)).
Proof.
  intros Hi. unfold TaskStorage.delete.
  destruct (TaskStorage.get s tid) as [o|]; [|exact Hi].
  destruct Hi as ([Ht Hl] & Hp & Hnd & Hlt). simpl.
  set (l' := remove_first _ (read_list s (tasks_loc s))).
  assert (Hsub : l' `sublist_of` read_list s (tasks_loc s)) by apply remove_first_sublist.
  assert (Hr : read_list (write_list s (tasks_loc s) l') (tasks_loc s) = l').
  { unfold read_list, write_list. simpl. by rewrite lookup_insert_eq. }
  assert (Hids : map id (stored (write_list s (tasks_loc s) l'))
                 `sublist_of` map id (stored s)).
  { unfold stored at 1. simpl. rewrite Hr. apply map_sublist, omap_sublist, Hsub. }
  split; [|split; [|split]].
  - split; simpl; [lia|]. intros l v Hlv.
    apply lookup_insert_Some in Hlv as [[<- _]|[_ Hlv]]; [lia|]. by apply Hl in Hlv.
  - intros o' Ho'. simpl in Ho'. rewrite Hr in Ho'. apply Hp.
    by apply elem_of_sublist with l'.
  - by apply sublist_NoDup with (map id (stored s)).
  - intros i Hi. apply Hlt. by apply elem_of_sublist with (map id (stored (write_list s (tasks_loc s) l'))).
Qed.

Lemma ids_ok_exec (s : State) (op : Op) :
  op_sets_id op = false -> ids_ok s -> ids_ok (exec s op).
Proof.
  intros Hop Hi. destruct op; simpl in *.
  - by apply ids_ok_create.
  - exact Hi.
  - by apply ids_ok_list.
  - unfold TaskStorage.update.
    destruct (TaskStorage.get s task_id) as [o|]; [|exact Hi].
    destruct (objs s !! o) as [t|] eqn:Ho; [|exact Hi].
    apply ids_ok_write_obj with t; [exact Ho| |exact Hi]. by apply setattr_keeps_id.
  - by apply ids_ok_delete.
  - apply ids_ok_mutate; [done|exact Hi].
  - apply ids_ok_mutate; [done|exact Hi].
Qed.

Lemma ids_ok_init : ids_ok init.
Proof.
  split; [apply wf_init|]. unfold read_list, stored. simpl.
  split; [intros o Ho; by apply elem_of_nil in Ho|]. split; [constructor|].
  intros i Hi. by apply elem_of_nil in Hi.
Qed.

(** Supporting fact for C9: along every sequence of storage calls in which
    no [update] passes [id=...] (every command of [CommandHandler] is such
    a call), the stored ids stay pairwise distinct and below [_next_id];
    ids are handed out by [create] from [_next_id], which only grows. *)
Lemma ids_distinct_without_id_kwarg (ops : list Op) :
  forallb (fun op => negb (op_sets_id op)) ops = true ->
  NoDup (map id (stored (run init ops))) /\
  (forall i, i ∈ map id (stored (run init ops)) -> i < next_id (run init ops)).
Proof.
  intros Hops.
  assert (Hinv : ids_ok (run init ops)).
  { unfold run. generalize ids_ok_init. generalize init.
    induction ops as [|op ops IH]; intros s Hs; simpl in *; [done|].
    apply andb_true_iff in Hops as [Hop Hops]. apply IH; [done|].
    apply ids_ok_exec; [|done]. by apply negb_true_iff in Hop. }
  destruct Hinv as (_ & _ & Hnd & Hlt). by split.
Qed.

End ConsoleFacts.

(* ===================================================================== *)
(** ** Further properties of the web [TaskService] *)
(* ===================================================================== *)

Module WebExtras.
Import Web WebFacts.

Lemma find_app_none {A} (f : A -> bool) (l1 l2 : list A) :
  List.find f l1 = None -> List.find f (l1 ++ l2) = List.find f l2.
Proof.
  induction l1 as [|x l1 IH]; simpl; [done|].
  destruct (f x); [discriminate|exact IH].
Qed.

Lemma get_fresh_none (db : DB) (tid uid : Z) :
  tid ∉ map id db -> TaskService.get db tid uid = None.
Proof.
  intros Hf. apply find_none_forall. intros r Hr. unfold matches.
  destruct (Z.eqb_spec (id r) tid) as [<-|]; [|done].
  exfalso. apply Hf, list_elem_of_In, in_map, Hr.
Qed.

Lemma find_remove_first_none (db : DB) (tid uid : Z) :
  NoDup (map id db) -> List.find (matches tid uid) (remove_first tid uid db) = None.
Proof.
  induction db as [|r db IH]; intros Hnd; simpl; [done|].
  inversion Hnd as [|? ? Hr Hnd']; subst.
  destruct (matches tid uid r) eqn:Hm; simpl.
  - apply find_none_forall. intros x Hx. unfold matches in *.
    apply andb_true_iff in Hm as [Hm _]. apply Z.eqb_eq in Hm.
    destruct (Z.eqb_spec (id x) tid) as [Hx'|]; [|done].
    exfalso. apply Hr, list_elem_of_In. rewrite Hm, <- Hx'. by apply in_map.
  - rewrite Hm. by apply IH.
Qed.

Lemma filter_replace_first (db : DB) (tid uid other : Z) (t' : Task) :
  other <> uid -> user_id t' = uid ->
  List.filter (fun r => user_id r =? other) (replace_first tid uid t' db)
  = List.filter (fun r => user_id r =? other) db.
Proof.
  intros Hne Ht. induction db as [|r db IH]; simpl; [done|].
  destruct (matches tid uid r) eqn:Hm; simpl.
  - unfold matches in Hm. apply andb_true_iff in Hm as [_ Hm]. apply Z.eqb_eq in Hm.
    rewrite Ht, Hm. by rewrite (proj2 (Z.eqb_neq uid other) (not_eq_sym Hne)).
  - by rewrite IH.
Qed.

Lemma filter_remove_first (db : DB) (tid uid other : Z) :
  other <> uid ->
  List.filter (fun r => user_id r =? other) (remove_first tid uid db)
  = List.filter (fun r => user_id r =? other) db.
Proof.
  intros Hne. induction db as [|r db IH]; simpl; [done|].
  destruct (matches tid uid r) eqn:Hm; simpl.
  - unfold matches in Hm. apply andb_true_iff in Hm as [_ Hm]. apply Z.eqb_eq in Hm.
    rewrite Hm. by rewrite (proj2 (Z.eqb_neq uid other) (not_eq_sym Hne)).
  - by rewrite IH.
Qed.

Lemma map_replace_first {B} (g : Task -> B) (db : DB) (tid uid : Z) (t' : Task) :
  (forall r, matches tid uid r = true -> g t' = g r) ->
  map g (replace_first tid uid t' db) = map g db.
Proof.
  intros Hg. induction db as [|r db IH]; simpl; [done|].
  destruct (matches tid uid r) eqn:Hm; simpl.
  - by rewrite (Hg r Hm).
  - by rewrite IH.
Qed.

(** A validated create is found again by [get] under its new id and owner:
    the row is appended to the table and no earlier row carries the fresh
    id. *)
Theorem createTask_then_get (db db' : DB) (uid : Z) (raw : TaskCreate)
    (new_id now : Z) (t : Task) :
  new_id ∉ map id db ->
  createTask db uid raw new_id now = (inr t, db') ->
  db' = db ++ [t] /\ TaskService.get db' new_id uid = Some t.
Proof.
  intros Hf H. unfold createTask in H.
  destruct (validate_TaskCreate raw) as [e|c]; [discriminate|].
  simpl in H. injection H as <- <-. split; [done|].
  unfold TaskService.get. rewrite find_app_none by (by apply get_fresh_none).
  simpl. unfold matches. simpl. by rewrite !Z.eqb_refl.
Qed.

Lemma createTask_then_get_witness :
  let t := mkTask 2 7 "Buy groceries" None PENDING MEDIUM None [] 5 5 None in
  let db := [mkTask 1 7 "a" None DONE LOW None [] 0 0 (Some 0)] in
  db ++ [t] = db ++ [t] /\ TaskService.get (db ++ [t]) 2 7 = Some t.
Proof.
  intros t db.
  apply (createTask_then_get db (db ++ [t]) 7 (TaskCreate_of_title "Buy groceries") 2 5 t).
  - apply (bool_decide_unpack _); vm_compute; reflexivity.
  - reflexivity.
Defined.

(** Under the primary key on [Task.id], after [delete] no row is found any
    more under the deleted id and owner, whether the delete succeeded or
    found nothing. *)
Theorem delete_then_get_none (db : DB) (tid uid : Z) :
  NoDup (map id db) ->
  TaskService.get (snd (TaskService.delete db tid uid)) tid uid = None.
Proof.
  intros Hnd. unfold TaskService.delete.
  destruct (TaskService.get db tid uid) eqn:Hg; simpl; [|exact Hg].
  by apply find_remove_first_none.
Qed.

Lemma delete_then_get_none_witness :
  TaskService.get (snd (TaskService.delete
    [mkTask 1 7 "a" None PENDING LOW None [] 0 0 None;
     mkTask 2 7 "b" None PENDING LOW None [] 0 0 None] 2 7)) 2 7 = None.
Proof.
  apply delete_then_get_none. apply (bool_decide_unpack _); vm_compute; reflexivity.
Defined.

(** Owner isolation: [create], [update] and [delete] on behalf of one user
    leave the rows of every other user exactly as they were, in order. *)
Theorem other_owners_rows_untouched (db : DB) (uid other : Z) :
  other <> uid ->
  (forall c new_id now,
     List.filter (fun r => user_id r =? other)
       (snd (TaskService.create db uid c new_id now))
     = List.filter (fun r => user_id r =? other) db) /\
  (forall tid u now,
     List.filter (fun r => user_id r =? other)
       (snd (TaskService.update db tid uid u now))
     = List.filter (fun r => user_id r =? other) db) /\
  (forall tid,
     List.filter (fun r => user_id r =? other)
       (snd (TaskService.delete db tid uid))
     = List.filter (fun r => user_id r =? other) db).
Proof.
  intros Hne. split; [|split].
  - intros c new_id now. simpl. rewrite List.filter_app. simpl.
    rewrite (proj2 (Z.eqb_neq uid other) (not_eq_sym Hne)). apply app_nil_r.
  - intros tid u now. unfold TaskService.update.
    destruct (TaskService.get db tid uid) as [t|] eqn:Hg; simpl; [|done].
    pose proof (get_matches _ _ _ _ Hg) as Hm. unfold matches in Hm.
    apply andb_true_iff in Hm as [_ Hm]. apply Z.eqb_eq in Hm.
    apply filter_replace_first; [exact Hne|]. by case_bool_decide.
  - intros tid. unfold TaskService.delete.
    destruct (TaskService.get db tid uid); simpl; [|done].
    by apply filter_remove_first.
Qed.

Lemma other_owners_rows_untouched_witness :
  List.filter (fun r => user_id r =? 8)
    (snd (TaskService.delete
      [mkTask 1 7 "a" None PENDING LOW None [] 0 0 None;
       mkTask 2 8 "b" None PENDING LOW None [] 0 0 None] 1 7))
  = [mkTask 2 8 "b" None PENDING LOW None [] 0 0 None].
Proof.
  rewrite (proj2 (proj2 (other_owners_rows_untouched _ 7 8 ltac:(lia))) 1).
  reflexivity.
Defined.

(** Every row [list] returns is a row of the table that belongs to the
    caller and passes the status filter, and at most [limit] rows come
    back. *)
Theorem list_sound (db : DB) (uid : Z) (st : option TaskStatus) (limit offset : nat) :
  (length (TaskService.list db uid st limit offset) <= limit)%nat /\
  forall t, t ∈ TaskService.list db uid st limit offset ->
    t ∈ db /\ user_id t = uid /\ status_filter st t = true.
Proof.
  unfold TaskService.list. split.
  - rewrite length_take. lia.
  - intros t Ht.
    assert (Hs : take limit (drop offset (List.filter
                   (fun t => (user_id t =? uid) && status_filter st t) db))
                 `sublist_of` List.filter
                   (fun t => (user_id t =? uid) && status_filter st t) db).
    { etransitivity; [apply sublist_take|apply sublist_drop]. }
    assert (Ht' : t ∈ List.filter (fun t => (user_id t =? uid) && status_filter st t) db)
      by (by apply elem_of_sublist with (1 := Ht)).
    apply list_elem_of_In, filter_In in Ht' as [Hin Hf].
    apply andb_true_iff in Hf as [Hu Hst]. apply Z.eqb_eq in Hu.
    split; [by apply list_elem_of_In|]. by split.
Qed.

(** [update] never changes the key or the owner of any row and never adds
    or removes rows: the table's ids and owners are the same lists before
    and after. *)
Theorem update_keeps_ids_and_owners (db : DB) (tid uid : Z) (u : TaskUpdate) (now : Z) :
  map id (snd (TaskService.update db tid uid u now)) = map id db /\
  map user_id (snd (TaskService.update db tid uid u now)) = map user_id db.
Proof.
  unfold TaskService.update.
  destruct (TaskService.get db tid uid) as [t|] eqn:Hg; simpl; [|done].
  pose proof (get_matches _ _ _ _ Hg) as Hm. unfold matches in Hm.
  apply andb_true_iff in Hm as [Hi Hu]. apply Z.eqb_eq in Hi, Hu.
  split; apply map_replace_first; intros r Hr; unfold matches in Hr;
    apply andb_true_iff in Hr as [Hri Hru]; apply Z.eqb_eq in Hri, Hru;
    case_bool_decide; simpl; congruence.
Qed.





End WebExtras.

(* ===================================================================== *)
(** ** Further properties of the console storage and command handler *)
(* ===================================================================== *)

Module ConsoleExtras.
Import Console ConsoleFacts.

Lemma ids_ok_run (ops : list Op) (s : State) :
  forallb (fun op => negb (op_sets_id op)) ops = true -> ids_ok s -> ids_ok (run s ops).
Proof.
  unfold run. revert s. induction ops as [|op ops IH]; intros s Hops Hs; simpl in *; [done|].
  apply andb_true_iff in Hops as [Hop Hops]. apply IH; [done|].
  apply ids_ok_exec; [|done]. by apply negb_true_iff in Hop.
Qed.

Lemma reachable_without_id_kwarg_ids_ok (s : State) :
  reachable_without_id_kwarg s -> ids_ok s.
Proof. intros (ops & Hops & ->). apply ids_ok_run; [done|apply ids_ok_init]. Qed.

Lemma find_ext {A} (f g : A -> bool) (l : list A) :
  (forall x, f x = g x) -> List.find f l = List.find g l.
Proof. intros H. induction l as [|x l IH]; simpl; [done|]. by rewrite H, IH. Qed.

Lemma in_omap_id (f : positive -> option Task) (l : list positive) (y : positive) (ty : Task) :
  In y l -> f y = Some ty -> id ty ∈ map id (omap f l).
Proof.
  intros Hy Ht. apply list_elem_of_In, in_map, list_elem_of_In, list_elem_of_omap.
  exists y. split; [by apply list_elem_of_In|done].
Qed.

(** [list.remove] on value equality, then a search by id: when the ids of
    the listed objects are distinct, no object with the id is left. *)
Lemma find_remove_first_value (f : positive -> option Task) (tid : Z)
    (l : list positive) (o : positive) :
  NoDup (map id (omap f l)) ->
  List.find (fun o' => match f o' with Some t => id t =? tid | None => false end) l = Some o ->
  List.find (fun o' => match f o' with Some t => id t =? tid | None => false end)
    (remove_first (fun o' => bool_decide (f o' = f o)) l) = None.
Proof.
  intros Hnd Hf.
  assert (Hfo : exists to, f o = Some to /\ id to = tid).
  { apply find_some in Hf as [_ Hf]. destruct (f o) as [to|]; [|done].
    exists to. split; [done|]. by apply Z.eqb_eq. }
  destruct Hfo as (to & Hfo & Hto).
  subst tid. induction l as [|x l IH]; [done|].
  simpl in Hf. simpl.
  destruct (f x) as [tx|] eqn:Hx; csimpl in Hnd; rewrite ?Hx in Hnd.
  - inversion Hnd as [|? ? Hnotin Hnd']; subst.
    destruct (Z.eqb_spec (id tx) (id to)) as [Heq|Hneq].
    + injection Hf as ->. rewrite bool_decide_true by congruence.
      apply WebFacts.find_none_forall. intros y Hy.
      destruct (f y) as [ty|] eqn:Hy'; [|done].
      destruct (Z.eqb_spec (id ty) (id to)) as [Hyy|]; [|done].
      exfalso. apply Hnotin. rewrite Heq, <- Hyy. by apply (in_omap_id f l y ty).
    + rewrite bool_decide_false by (rewrite Hfo; congruence).
      simpl. rewrite Hx. destruct (Z.eqb_spec (id tx) (id to)); [done|]. by apply IH.
  - rewrite bool_decide_false by (rewrite Hfo; congruence).
    simpl. rewrite Hx. by apply IH.
Qed.

Lemma get_write_obj_same_id (s : State) (tid : Z) (o : positive) (t t' : Task) :
  objs s !! o = Some t -> id t' = id t ->
  TaskStorage.get (write_obj s o t') tid = TaskStorage.get s tid.
Proof.
  intros Ho Hid. unfold TaskStorage.get, read_list. simpl. apply find_ext.
  intros x. unfold has_id. simpl. destruct (decide (o = x)) as [<-|Hne].
  - by rewrite lookup_insert_eq, Ho, Hid.
  - by rewrite lookup_insert_ne.
Qed.

(** [TaskStorage.create] then [get]: on a storage driven only by calls that
    do not assign [id], the task just created is found by [get] under the
    id [_next_id] had before the call, and it is the new object with the
    given title and description, [pending] and not completed. *)
Theorem storage_create_then_get (s : State) (ttl : string) (desc : option string) (now : Z) :
  reachable_without_id_kwarg s ->
  TaskStorage.get (snd (TaskStorage.create s ttl desc now)) (next_id s)
  = Some (fst (TaskStorage.create s ttl desc now)) /\
  objs (snd (TaskStorage.create s ttl desc now)) !! fst (TaskStorage.create s ttl desc now)
  = Some (mkTask (next_id s) ttl desc pending now None).
Proof.
  intros Hr. destruct (reachable_without_id_kwarg_ids_ok s Hr) as ([Ht Hl] & Hp & _ & Hlt).
  simpl. split; [|by rewrite lookup_insert_eq].
  unfold TaskStorage.get, read_list. simpl. rewrite lookup_insert_eq. simpl.
  rewrite WebExtras.find_app_none.
  - simpl. unfold has_id. simpl. by rewrite lookup_insert_eq, Z.eqb_refl.
  - apply WebFacts.find_none_forall. intros o Ho.
    apply list_elem_of_In in Ho. destruct (Hp o Ho) as [Hf [t Hot]].
    unfold has_id. simpl. rewrite lookup_insert_ne by lia. rewrite Hot.
    apply Z.eqb_neq. intros Hid.
    assert (Hin : id t ∈ map id (stored s)).
    { apply list_elem_of_In in Ho. by apply (in_omap_id _ _ o). }
    apply Hlt in Hin. lia.
Qed.

Lemma storage_create_then_get_witness :
  TaskStorage.get (snd (TaskStorage.create (run init [OCreate "a" None 0]) "b" None 1)) 2
  = Some 3%positive.
Proof.
  assert (Hr : reachable_without_id_kwarg (run init [OCreate "a" None 0]))
    by (exists [OCreate "a" None 0]; split; reflexivity).
  exact (proj1 (storage_create_then_get _ "b" None 1 Hr)).
Defined.

(** [TaskStorage.delete] then [get]: on a storage driven only by calls that
    do not assign [id], once [delete(task_id)] has run, [get(task_id)]
    finds nothing, whether the delete removed a task or found none.
    [list.remove] removes the first object equal by value to the found one;
    with distinct ids that is the found object itself. *)
Theorem storage_delete_then_get_none (s : State) (tid : Z) :
  reachable_without_id_kwarg s ->
  TaskStorage.get (snd (TaskStorage.delete s tid)) tid = None.
Proof.
  intros Hr. destruct (reachable_without_id_kwarg_ids_ok s Hr) as (_ & _ & Hnd & _).
  unfold TaskStorage.delete.
  destruct (TaskStorage.get s tid) as [o|] eqn:Hg; simpl; [|exact Hg].
  unfold TaskStorage.get, read_list, write_list. simpl. rewrite lookup_insert_eq. simpl.
  apply (find_remove_first_value (fun o => objs s !! o)); [exact Hnd|exact Hg].
Qed.

Lemma storage_delete_then_get_none_witness :
  TaskStorage.get (snd (TaskStorage.delete
    (run init [OCreate "a" None 0; OCreate "b" None 0]) 1)) 1 = None.
Proof.
  apply storage_delete_then_get_none.
  exists [OCreate "a" None 0; OCreate "b" None 0]. split; reflexivity.
Defined.

(** [CommandHandler.done] then [CommandHandler.undo] on a pending task that
    was never completed gives back exactly the storage state before. *)
Theorem done_then_undo_restores (s : State) (tid now : Z) (o : positive) (t : Task) :
  TaskStorage.get s tid = Some o -> objs s !! o = Some t ->
  status t = pending -> completed_at t = None ->
  snd (CommandHandler.undo (snd (CommandHandler.done s tid now)) tid) = s.
Proof.
  intros Hg Ho Hst Hc.
  unfold CommandHandler.done. rewrite Hg. simpl.
  unfold mutate_task at 1. rewrite Hg, Ho.
  unfold CommandHandler.undo.
  rewrite (get_write_obj_same_id s tid o t (mark_done now t) Ho eq_refl), Hg. simpl.
  unfold mutate_task. rewrite (get_write_obj_same_id s tid o t (mark_done now t) Ho eq_refl), Hg.
  simpl. rewrite lookup_insert_eq.
  unfold write_obj. simpl. rewrite insert_insert_eq.
  replace (mark_pending (mark_done now t)) with t
    by (destruct t; simpl in *; by subst).
  rewrite insert_id by exact Ho. by destruct s.
Qed.

Lemma done_then_undo_restores_witness :
  snd (CommandHandler.undo
         (snd (CommandHandler.done (run init [OCreate "a" None 0]) 1 5)) 1)
  = run init [OCreate "a" None 0].
Proof.
  apply (done_then_undo_restores _ 1 5 2%positive (mkTask 1 "a" None pending 0 None));
    reflexivity.
Defined.

Lemma ids_ok_run_command (s : State) (c : Command) :
  ids_ok s -> ids_ok (snd (run_command s c)).
Proof.
  intros Hi. destruct c as [ttl desc now|i now|i|i|i ttl desc]; simpl.
  - unfold CommandHandler.add.
    pose proof (ids_ok_exec s (OCreate ttl desc now) eq_refl Hi) as H. simpl in H.
    by destruct (TaskStorage.create s ttl desc now).
  - unfold CommandHandler.done. destruct (TaskStorage.get s i); simpl; [|done].
    exact (ids_ok_exec s (OMarkDone i now) eq_refl Hi).
  - unfold CommandHandler.undo. destruct (TaskStorage.get s i); simpl; [|done].
    exact (ids_ok_exec s (OMarkPending i) eq_refl Hi).
  - unfold CommandHandler.delete.
    pose proof (ids_ok_exec s (ODelete i) eq_refl Hi) as H. simpl in H.
    destruct (TaskStorage.delete s i) as [[] s']; exact H.
  - unfold CommandHandler.edit.
    assert (Hk : op_sets_id (OUpdate i (CommandHandler.edit_updates ttl desc)) = false).
    { simpl. unfold CommandHandler.edit_updates.
      by destruct (CommandHandler.truthy ttl), (CommandHandler.truthy desc). }
    pose proof (ids_ok_exec s _ Hk Hi) as H. simpl in H.
    destruct (TaskStorage.update s i _) as [[] s']; exact H.
Qed.

(** Every sequence of console commands ([add], [done], [undo], [delete],
    [edit]) from a fresh storage keeps the stored ids pairwise distinct and
    below [_next_id]: [edit] only ever passes [title] and [description]. *)
Theorem commands_keep_ids_distinct (cs : list Command) :
  NoDup (map id (stored (run_commands init cs))) /\
  forall i, i ∈ map id (stored (run_commands init cs)) -> i < next_id (run_commands init cs).
Proof.
  assert (Hinv : ids_ok (run_commands init cs)).
  { unfold run_commands. generalize ids_ok_init. generalize init.
    induction cs as [|c cs IH]; intros s Hs; simpl; [done|].
    apply IH, ids_ok_run_command, Hs. }
  destruct Hinv as (_ & _ & Hnd & Hlt). by split.
Qed.

End ConsoleExtras.

(* ===================================================================== *)
(** ** Properties of the web frontend *)
(* ===================================================================== *)

Module FrontendFacts.
Import Frontend.

Lemma ltrim_idem (s : string) : ltrim (ltrim s) = ltrim s.
Proof.
  induction s as [|c s IH]; simpl; [done|].
  destruct (is_ws c) eqn:Hc; [exact IH|]. simpl. by rewrite Hc.
Qed.

Lemma rtrim_idem (s : string) : rtrim (rtrim s) = rtrim s.
Proof.
  induction s as [|c s IH]; simpl; [done|].
  destruct (rtrim s) as [|c' r'] eqn:Hr.
  - destruct (is_ws c) eqn:Hc; simpl; [done|]. by rewrite Hc.
  - rewrite <- Hr. simpl. by rewrite Hr, IH.
Qed.

Lemma rtrim_head (c : ascii) (s : string) :
  rtrim (String c s) = EmptyString \/ exists r, rtrim (String c s) = String c r.
Proof.
  simpl. destruct (rtrim s) as [|c' r']; [|right; by eexists].
  destruct (is_ws c); [by left|right; by eexists].
Qed.

(** [ltrim] leaves a string that already starts with a non-blank alone,
    and so does [rtrim] to the start of such a string. *)
Lemma ltrim_rtrim_ltrim (s : string) : ltrim (rtrim (ltrim s)) = rtrim (ltrim s).
Proof.
  pose proof (ltrim_idem s) as Hl. destruct (ltrim s) as [|c r]; [done|].
  simpl in Hl. destruct (is_ws c) eqn:Hc.
  - exfalso. simpl in Hl.
    assert (Hlen : (String.length (ltrim r) <= String.length r)%nat).
    { clear. induction r as [|c' r IH]; simpl; [lia|]. destruct (is_ws c'); simpl; lia. }
    apply (f_equal String.length) in Hl. simpl in Hl. lia.
  - destruct (rtrim_head c r) as [->|[r' ->]]; [done|]. simpl. by rewrite Hc.
Qed.

(** [String.prototype.trim] is idempotent. *)
Lemma trim_idem (s : string) : trim (trim s) = trim s.
Proof. unfold trim. rewrite ltrim_rtrim_ltrim. apply rtrim_idem. Qed.

Lemma has_char_ltrim (c : ascii) (s : string) :
  has_char c s = false -> has_char c (ltrim s) = false.
Proof.
  induction s as [|x s IH]; simpl; [done|]. intros H.
  apply orb_false_iff in H as [Hx H].
  destruct (is_ws x); [by apply IH|]. simpl. by rewrite Hx, H.
Qed.

Lemma has_char_rtrim (c : ascii) (s : string) :
  has_char c s = false -> has_char c (rtrim s) = false.
Proof.
  induction s as [|x s IH]; simpl; [done|]. intros H.
  apply orb_false_iff in H as [Hx H]. specialize (IH H).
  destruct (rtrim s) as [|y r] eqn:Hr.
  - destruct (is_ws x); simpl; [done|]. by rewrite Hx.
  - simpl in IH |- *. by rewrite Hx, IH.
Qed.

Lemma split_on_no_sep (c : ascii) (s p : string) :
  In p (split_on c s) -> has_char c p = false.
Proof.
  revert p. induction s as [|x s IH]; intros p Hp; simpl in Hp.
  - by destruct Hp as [<-|[]].
  - destruct (Ascii.eqb x c) eqn:Hx.
    + destruct Hp as [<-|Hp]; [done|by apply IH].
    + destruct (split_on c s) as [|q qs] eqn:Hs.
      * destruct Hp as [<-|[]]. simpl. by rewrite Hx.
      * destruct Hp as [<-|Hp]; [|apply IH; by right].
        simpl. rewrite Hx. apply IH. by left.
Qed.

Lemma split_on_single (c : ascii) (s : string) :
  has_char c s = false -> split_on c s = [s].
Proof.
  induction s as [|x s IH]; simpl; [done|]. intros H.
  apply orb_false_iff in H as [Hx H]. by rewrite Hx, IH.
Qed.

Lemma split_on_app_sep (c : ascii) (a r : string) :
  has_char c a = false -> split_on c (a ++ String c r) = a :: split_on c r.
Proof.
  induction a as [|x a IH]; simpl; intros H.
  - by rewrite Ascii.eqb_refl.
  - apply orb_false_iff in H as [Hx H]. by rewrite Hx, IH.
Qed.

Lemma split_on_cons_other (c x : ascii) (r p : string) (ps : list string) :
  Ascii.eqb x c = false -> split_on c r = p :: ps ->
  split_on c (String x r) = String x p :: ps.
Proof. intros Hx Hr. simpl. by rewrite Hx, Hr. Qed.

(** Splitting the joined tags at the commas gives the first tag and then
    every further tag behind the blank of the separator [", "]. *)
Lemma split_join (x : string) (xs : list string) :
  Forall (fun t => has_char "," t = false) (x :: xs) ->
  split_on "," (String.concat ", " (x :: xs)) = x :: map (String " ") xs.
Proof.
  revert x. induction xs as [|y ys IH]; intros x Hall.
  - simpl. apply split_on_single. by inversion Hall.
  - inversion Hall as [|? ? Hx Hrest]; subst.
    change (String.concat ", " (x :: y :: ys))
      with (x ++ String "," (String " " (String.concat ", " (y :: ys))))%string.
    rewrite split_on_app_sep by exact Hx. f_equal.
    apply split_on_cons_other; [reflexivity|exact (IH y Hrest)].
Qed.

Lemma trim_blank (s : string) : trim (String " " s) = trim s.
Proof. reflexivity. Qed.

(** Every tag the form sends is non-empty, contains no comma and has no
    blank at either end: the input is cut at every comma, each piece is
    trimmed and the empty pieces are dropped. *)
Theorem parse_tags_clean (input t : string) :
  In t (parse_tags input) -> t <> EmptyString /\ has_char "," t = false /\ trim t = t.
Proof.
  unfold parse_tags. destruct (String.eqb input "") ; [done|].
  intros Ht. apply filter_In in Ht as [Ht Hne].
  apply in_map_iff in Ht as (p & <- & Hp).
  split; [by destruct (trim p)|]. split; [|apply trim_idem].
  unfold trim. apply has_char_rtrim, has_char_ltrim. by apply split_on_no_sep with input.
Qed.

Lemma parse_tags_clean_witness :
  In "b" (parse_tags " a , b,,  ") /\
  "b" <> EmptyString /\ has_char "," "b" = false /\ trim "b" = "b".
Proof.
  assert (H : In "b" (parse_tags " a , b,,  ")) by (vm_compute; right; left; reflexivity).
  split; [exact H|]. exact (parse_tags_clean _ _ H).
Defined.

(** Round trip of the edit form: the tags of a task shown in the tags input
    ([tags.join(', ')]) and submitted unchanged come back as the same list,
    provided every tag is non-empty, contains no comma and has no blank at
    either end. *)
Theorem parse_join_tags (tags : list string) :
  (forall t, In t tags -> t <> EmptyString /\ has_char "," t = false /\ trim t = t) ->
  parse_tags (join_tags tags) = tags.
Proof.
  intros Hok. destruct tags as [|x xs]; [done|].
  unfold parse_tags, join_tags.
  assert (Hx : x <> EmptyString) by apply (Hok x (or_introl eq_refl)).
  assert (Hne : String.eqb (String.concat ", " (x :: xs)) "" = false).
  { destruct x as [|c x]; [done|]. destruct xs; reflexivity. }
  rewrite Hne. simpl negb.
  rewrite split_join.
  2:{ apply Forall_forall. intros t Ht. apply list_elem_of_In in Ht. apply (Hok t Ht). }
  simpl map. rewrite map_map.
  rewrite (map_ext_in (fun t => trim (String " " t)) (fun t => t)).
  2:{ intros t Ht. rewrite trim_blank. apply (Hok t (or_intror Ht)). }
  rewrite map_id.
  rewrite (proj2 (proj2 (Hok x (or_introl eq_refl)))).
  apply forallb_filter_id. apply forallb_forall. intros t Ht.
  apply negb_true_iff. destruct (Hok t Ht) as [Hne' _].
  destruct (String.eqb_spec t ""); [done|reflexivity].
Qed.

Lemma parse_join_tags_witness :
  parse_tags (join_tags ["work"; "home"; "urgent"]) = ["work"; "home"; "urgent"].
Proof.
  apply parse_join_tags. intros t Ht.
  destruct Ht as [<-|[<-|[<-|[]]]]; split; try discriminate; split; reflexivity.
Defined.

Lemma nav_fold_bounds (ts : list Web.Task) (es : list NavEvent) (i : Z) :
  -1 <= i <= Z.max (Z.of_nat (length ts) - 1) 0 ->
  -1 <= fold_left (nav_step (Some ts)) es i <= Z.max (Z.of_nat (length ts) - 1) 0.
Proof.
  revert i. induction es as [|e es IH]; intros i Hi; simpl; [done|].
  apply IH. destruct e; simpl; lia.
Qed.

(** Keyboard navigation over a loaded task list: whatever keys are pressed,
    the selection stays between [-1] and [max(n - 1, 0)]; the toggle key
    acts exactly when the list is non-empty and something is selected, and
    then on a task of the list. *)
Theorem nav_selection_bounds (ts : list Web.Task) (es : list NavEvent) :
  -1 <= nav_run (Some ts) es <= Z.max (Z.of_nat (length ts) - 1) 0 /\
  (handle_toggle (Some ts) (nav_run (Some ts) es) = None <->
   ts = [] \/ nav_run (Some ts) es = -1).
Proof.
  assert (Hb : -1 <= nav_run (Some ts) es <= Z.max (Z.of_nat (length ts) - 1) 0).
  { apply nav_fold_bounds. lia. }
  split; [exact Hb|]. unfold handle_toggle.
  set (i := nav_run (Some ts) es) in *.
  destruct ts as [|t ts'].
  - simpl. split; [by left|]. intros _. destruct (Z.to_nat i); simpl; by case_match.
  - split.
    + intros H. right. destruct (Z.eq_dec i (-1)) as [|Hne]; [done|exfalso].
      assert (Hr : (0 <=? i) && (i <? Z.of_nat (length (t :: ts'))) = true).
      { apply andb_true_iff. split; [apply Z.leb_le|apply Z.ltb_lt]; simpl in *; lia. }
      rewrite Hr in H.
      destruct (nth_error (t :: ts') (Z.to_nat i)) eqn:Hn; [discriminate|].
      apply nth_error_None in Hn. simpl in *. lia.
    + intros [Hc|Hi]; [discriminate|]. rewrite Hi. done.
Qed.

End FrontendFacts.
